(** * eleven: a formatting service with usage metrics

    A shallow embedding of [main.go]: the three formatters, the request
    handler, the metrics middleware, the metrics endpoint and the choice
    of the listening port, followed by the properties of the service.

    Conventions.
    - [int64] and [time.Duration] fields are integers in [Z]; every
      arithmetic operation of the source is followed by [wrap64].
    - [[]byte] is [list byte], a Go [string] is [string].
    - The packages [encoding/json], [encoding/xml] and
      [golang.org/x/net/html] are not part of the repository: their entry
      points are the fields of the class [Codecs], and every definition
      and theorem is stated for an arbitrary instance.
    - Each [mu.Lock() ... mu.Unlock()] section of the source is one atomic
      operation on the accumulator ([MetricsOp]); the handler and the
      middleware emit these operations in program order.
    - [time.Since(start)] is an input of the middleware ([elapsed]).
    - Log lines are not modelled. *)

From Stdlib Require Import ZArith List String Ascii Lia.
From Stdlib.Strings Require Import Byte.
From stdpp Require Import base option list gmap strings.

Local Open Scope Z_scope.

(** ** 64-bit signed integers *)

Definition int64_min : Z := - 2 ^ 63.
Definition int64_max : Z := 2 ^ 63 - 1.

(** Two's complement reduction of an integer into the range of [int64]. *)
Definition wrap64 (z : Z) : Z := (z + 2 ^ 63) mod 2 ^ 64 - 2 ^ 63.

Definition in_int64 (z : Z) : Prop := int64_min <= z <= int64_max.

(** ** The metrics accumulator *)

(** [type FormatAPIMetrics struct]; the mutex is represented by the
    atomicity of the operations below. *)
Record FormatAPIMetrics : Type := mkMetrics {
  RequestCount : Z;
  ErrorCount : Z;
  TotalDuration : Z;
  MaxPayloadSize : Z
}.

(** [var formatMetrics = &FormatAPIMetrics{}] *)
Definition formatMetrics : FormatAPIMetrics := mkMetrics 0 0 0 0.

(** The critical sections of the program. *)
Inductive MetricsOp : Type :=
| RecordError
| RecordRequest (duration payloadSize : Z).

(** [formatMetrics.ErrorCount++] under the lock (formatHandler). *)
Definition recordError (m : FormatAPIMetrics) : FormatAPIMetrics :=
  mkMetrics (RequestCount m) (wrap64 (ErrorCount m + 1))
            (TotalDuration m) (MaxPayloadSize m).

(** The update at the end of FormatMetricsMiddleware. *)
Definition recordRequest (duration payloadSize : Z) (m : FormatAPIMetrics)
  : FormatAPIMetrics :=
  mkMetrics (wrap64 (RequestCount m + 1))
            (ErrorCount m)
            (wrap64 (TotalDuration m + duration))
            (if payloadSize >? MaxPayloadSize m
             then payloadSize else MaxPayloadSize m).

Definition run_op (op : MetricsOp) (m : FormatAPIMetrics) : FormatAPIMetrics :=
  match op with
  | RecordError => recordError m
  | RecordRequest duration payloadSize => recordRequest duration payloadSize m
  end.

(** Operations applied in order, first to last. *)
Definition run_ops (ops : list MetricsOp) (m : FormatAPIMetrics)
  : FormatAPIMetrics :=
  fold_left (fun acc op => run_op op acc) ops m.

(** ** Results and library entry points *)

(** A Go pair [(value, error)] with exactly one side set; the error is
    kept as its message. *)
Inductive result (A : Type) : Type :=
| Ok (a : A)
| Err (msg : string).
Arguments Ok {A} a.
Arguments Err {A} msg.

Class Codecs : Type := {
  json_value : Type;
  json_Unmarshal : list byte -> result json_value;
  json_MarshalIndent : json_value -> string -> string -> result (list byte);
  xml_value : Type;
  xml_Unmarshal : list byte -> result xml_value;
  xml_MarshalIndent : xml_value -> string -> string -> result (list byte);
  html_Node : Type;
  html_Parse : list byte -> result html_Node;
  html_Render : html_Node -> result (list byte)
}.

(** The byte ['\n']. *)
Definition newline : byte := x0a.

(** [fmt.Errorf(prefix + ": %w", err)] *)
Definition wrap_error (prefix msg : string) : string :=
  prefix +:+ ": " +:+ msg.

Section Formatters.
Context `{C : Codecs}.

Definition formatJSON (data : list byte) : result (list byte) :=
  match json_Unmarshal data with
  | Err err => Err (wrap_error "failed to parse JSON" err)
  | Ok parsedJSON =>
      match json_MarshalIndent parsedJSON EmptyString "  " with
      | Err err => Err (wrap_error "failed to format JSON" err)
      | Ok formattedJSON => Ok formattedJSON
      end
  end.

Definition formatXML (data : list byte) : result (list byte) :=
  match xml_Unmarshal data with
  | Err err => Err (wrap_error "failed to parse XML" err)
  | Ok parsedXML =>
      match xml_MarshalIndent parsedXML EmptyString "  " with
      | Err err => Err (wrap_error "failed to format XML" err)
      | Ok formattedXML => Ok (formattedXML ++ [newline])
      end
  end.

Definition formatHTML (data : list byte) : result (list byte) :=
  match html_Parse data with
  | Err err => Err (wrap_error "failed to parse HTML" err)
  | Ok doc =>
      match html_Render doc with
      | Err err => Err (wrap_error "failed to render HTML" err)
      | Ok buf => Ok buf
      end
  end.
End Formatters.

(** ** Requests and responses *)

(** The body stream of a request: either it can be read to its end, or
    reading stops with an error after some bytes. *)
Inductive Body : Type :=
| Readable (data : list byte)
| Unreadable (partial : list byte) (err : string).

(** [ioutil.ReadAll]: the bytes read, and the error if there was one. *)
Definition ioutil_ReadAll (b : Body) : list byte * option string :=
  match b with
  | Readable data => (data, None)
  | Unreadable partial err => (partial, Some err)
  end.

(** [*http.Request], with the fields the program uses. [Query] is the
    parsed query string ([url.Values]). *)
Record Request : Type := mkRequest {
  Method : string;
  Path : string;
  Query : gmap string (list string);
  ReqBody : Body
}.

(** [url.Values.Get]: the first value of the key, or the empty string. *)
Definition Values_Get (v : gmap string (list string)) (key : string) : string :=
  match v !! key with
  | Some (x :: _) => x
  | _ => EmptyString
  end.

(** [strings.ToLower] as it acts on ASCII text: the letters A-Z are
    mapped to a-z and every other byte is kept. The Unicode case tables
    that Go applies to non-ASCII runes are not modelled. *)
Definition lower_ascii (c : ascii) : ascii :=
  let n := N_of_ascii c in
  if ((65 <=? n) && (n <=? 90))%N then ascii_of_N (n + 32) else c.

Fixpoint ToLower (s : string) : string :=
  match s with
  | EmptyString => EmptyString
  | String c s' => String (lower_ascii c) (ToLower s')
  end.

(** What an [http.ResponseWriter] has received: the header map, the status
    line once written, and the body bytes. *)
Record ResponseWriter : Type := mkResponse {
  Header : gmap string string;
  Status : option Z;
  Written : list byte
}.

Definition emptyResponse : ResponseWriter := mkResponse ∅ None [].

Definition StatusOK : Z := 200.
Definition StatusBadRequest : Z := 400.
Definition StatusInternalServerError : Z := 500.

Definition Header_Set (key value : string) (w : ResponseWriter) : ResponseWriter :=
  mkResponse (<[key := value]> (Header w)) (Status w) (Written w).

(** [w.WriteHeader]: only the first call sets the status. *)
Definition WriteHeader (code : Z) (w : ResponseWriter) : ResponseWriter :=
  match Status w with
  | Some _ => w
  | None => mkResponse (Header w) (Some code) (Written w)
  end.

(** [w.Write]: writes the status 200 first if none was written. *)
Definition Write (data : list byte) (w : ResponseWriter) : ResponseWriter :=
  let w1 := WriteHeader StatusOK w in
  mkResponse (Header w1) (Status w1) (Written w1 ++ data).

(** [http.Error]: a plain-text reply with the given status, the message
    followed by a newline. *)
Definition http_Error (w : ResponseWriter) (error : string) (code : Z)
  : ResponseWriter :=
  let w1 := Header_Set "Content-Type" "text/plain; charset=utf-8" w in
  let w2 := Header_Set "X-Content-Type-Options" "nosniff" w1 in
  Write (list_byte_of_string error ++ [newline]) (WriteHeader code w2).

(** A handler: the response written and the critical sections executed,
    in order. *)
Definition Handler : Type := ResponseWriter -> Request -> ResponseWriter * list MetricsOp.

(** ** The handler and the middleware *)

Section Service.
Context `{C : Codecs}.

(** The [switch contentType] of formatHandler: the formatter's result, or
    [None] in the [default] case. *)
Definition dispatch (contentType : string) (body : list byte)
  : option (result (list byte)) :=
  if decide (contentType = "json") then Some (formatJSON body)
  else if decide (contentType = "xml") then Some (formatXML body)
  else if decide (contentType = "html") then Some (formatHTML body)
  else None.

Definition formatHandler : Handler := fun w r =>
  let contentType := ToLower (Values_Get (Query r) "type") in
  if decide (contentType = EmptyString) then
    (http_Error w "Missing 'type' parameter. Specify 'json', 'xml', or 'html'."
                StatusBadRequest,
     [RecordError])
  else
    match ioutil_ReadAll (ReqBody r) with
    | (_, Some err) =>
        (http_Error w "Failed to read request body" StatusBadRequest,
         [RecordError])
    | (body, None) =>
        match dispatch contentType body with
        | None =>
            (http_Error w
               "Invalid 'type' parameter. Supported types are 'json', 'xml', and 'html'."
               StatusBadRequest,
             [RecordError])
        | Some (Err err) =>
            (http_Error w ("Formatting failed: " +:+ err)
                        StatusInternalServerError,
             [RecordError])
        | Some (Ok formattedData) =>
            (Write formattedData
               (WriteHeader StatusOK
                  (Header_Set "Content-Type" "text/plain; charset=utf-8" w)),
             [])
        end
    end.

(** [FormatMetricsMiddleware(next)]; [elapsed] is the value of
    [time.Since(start)] when [next] has returned. *)
Definition FormatMetricsMiddleware (next : Handler) (elapsed : Z) : Handler :=
  fun w r =>
  match ioutil_ReadAll (ReqBody r) with
  | (_, Some err) =>
      (http_Error w "Failed to read request body" StatusBadRequest, [])
  | (body, None) =>
      let r' := mkRequest (Method r) (Path r) (Query r) (Readable body) in
      let payloadSize := Z.of_nat (length body) in
      let '(w', ops) := next w r' in
      (w', ops ++ [RecordRequest elapsed payloadSize])
  end.

(** [Logger(next)] only emits log lines around [next]. *)
Definition Logger (next : Handler) : Handler := fun w r => next w r.

(** The chain registered for [POST /format] in [main]. *)
Definition serveFormat (elapsed : Z) : Handler :=
  Logger (FormatMetricsMiddleware formatHandler elapsed).

(** One call of [POST /format], run to completion on the accumulator [m]
    with no other request in flight. *)
Definition call (m : FormatAPIMetrics) (elapsed : Z) (r : Request)
  : ResponseWriter * FormatAPIMetrics :=
  let '(w, ops) := serveFormat elapsed emptyResponse r in
  (w, run_ops ops m).

(** A sequence of calls, one after the other. *)
Fixpoint calls (m : FormatAPIMetrics) (rs : list (Z * Request))
  : FormatAPIMetrics :=
  match rs with
  | [] => m
  | (elapsed, r) :: rs' => calls (snd (call m elapsed r)) rs'
  end.

End Service.

(** ** The metrics endpoint *)

(** The map encoded by MetricsHandler. *)
Record Snapshot : Type := mkSnapshot {
  request_count : Z;
  error_count : Z;
  total_duration_ms : Z;
  average_duration_ms : Z;
  max_payload_size_bytes : Z
}.

(** [time.Duration.Milliseconds]: nanoseconds to milliseconds, truncated. *)
Definition Milliseconds (d : Z) : Z := Z.quot d 1000000.

(** Go's [/] on [int64]: a run-time panic, here [None], when the divisor
    is 0, and the quotient truncated toward zero otherwise. *)
Definition int64_div (a b : Z) : option Z :=
  if decide (b = 0) then None else Some (wrap64 (Z.quot a b)).

(** The local [averageDuration] of MetricsHandler as it is computed:
    0 unless the request count is positive, and then the division, which
    may panic. *)
Definition averageDuration_run (m : FormatAPIMetrics) : option Z :=
  if RequestCount m >? 0
  then int64_div (TotalDuration m) (RequestCount m)
  else Some 0.

(** MetricsHandler as it runs: the map it encodes, or [None] when the
    division panics. *)
Definition MetricsHandler_run (m : FormatAPIMetrics) : option Snapshot :=
  match averageDuration_run m with
  | None => None
  | Some average =>
      Some (mkSnapshot (RequestCount m) (ErrorCount m)
              (Milliseconds (TotalDuration m))
              (Milliseconds average)
              (MaxPayloadSize m))
  end.

(** The value of [averageDuration] when the computation returns one. *)
Definition averageDuration (m : FormatAPIMetrics) : Z :=
  default 0 (averageDuration_run m).

(** The map encoded by MetricsHandler, read off [averageDuration];
    [MetricsHandler_run] returns it whenever it returns. *)
Definition MetricsHandler (m : FormatAPIMetrics) : Snapshot :=
  mkSnapshot (RequestCount m) (ErrorCount m)
             (Milliseconds (TotalDuration m))
             (Milliseconds (averageDuration m))
             (MaxPayloadSize m).

(** ** The listening port *)

(** [os.Getenv]: the value of the variable, empty when it is not set. *)
Definition os_Getenv (env : gmap string string) (key : string) : string :=
  default EmptyString (env !! key).

Definition port (env : gmap string string) : string :=
  let port := os_Getenv env "PORT" in
  if decide (port = EmptyString) then "8030" else port.

(** The address given to [http.ListenAndServe]. *)
Definition listenAddr (env : gmap string string) : string :=
  ":" +:+ port env.

(** ** Concurrent requests *)

(** The server between two critical sections: the accumulator, and for
    every request received so far the critical sections it still has to
    execute. *)
Record Server : Type := mkServer {
  metrics : FormatAPIMetrics;
  inflight : list (list MetricsOp)
}.

Definition boot : Server := mkServer formatMetrics [].

(** A request arrives, or some request in flight takes the lock and
    executes its next critical section. The duration that the middleware
    will measure for a request is fixed when it arrives; it may be any
    integer. *)
Inductive step `{C : Codecs} : Server -> Server -> Prop :=
| step_arrive s elapsed r :
    step s (mkServer (metrics s)
              (inflight s ++ [snd (serveFormat elapsed emptyResponse r)]))
| step_run s i op rest :
    inflight s !! i = Some (op :: rest) ->
    step s (mkServer (run_op op (metrics s)) (<[i := rest]> (inflight s))).

(** States reached from [boot] in [n] steps. *)
Inductive reach `{C : Codecs} : nat -> Server -> Prop :=
| reach_boot : reach 0 boot
| reach_step n s s' : reach n s -> step s s' -> reach (S n) s'.

Definition is_error (op : MetricsOp) : bool :=
  match op with RecordError => true | RecordRequest _ _ => false end.

Definition is_request (op : MetricsOp) : bool :=
  match op with RecordError => false | RecordRequest _ _ => true end.

(** The number of critical sections of one kind in a list. *)
Fixpoint count_ops (kind : MetricsOp -> bool) (t : list MetricsOp) : Z :=
  match t with
  | [] => 0
  | op :: t' => (if kind op then 1 else 0) + count_ops kind t'
  end.

(** The number of critical sections of one kind that requests in flight
    have not executed yet. *)
Fixpoint pending (kind : MetricsOp -> bool) (ts : list (list MetricsOp)) : Z :=
  match ts with
  | [] => 0
  | t :: ts' => count_ops kind t + pending kind ts'
  end.

(** Requests in flight whose middleware update is still to come. *)
Definition uncounted (s : Server) : Z := pending is_request (inflight s).

(** ** A stand-in for the libraries

    Used to run the service on concrete requests. The decoders accept
    every non-empty input and keep it as it is; this is not a model of
    the Go packages. *)

Definition keep_nonempty (what : string) (data : list byte) : result (list byte) :=
  match data with
  | [] => Err ("unexpected end of " +:+ what +:+ " input")
  | _ => Ok data
  end.

Definition echo_codecs : Codecs := {|
  json_value := list byte;
  json_Unmarshal := keep_nonempty "JSON";
  json_MarshalIndent := fun v _ _ => Ok v;
  xml_value := list byte;
  xml_Unmarshal := keep_nonempty "XML";
  xml_MarshalIndent := fun v _ _ => Ok v;
  html_Node := list byte;
  html_Parse := fun data => Ok data;
  html_Render := fun doc => Ok doc
|}.

(** The values of the [type] parameter that select a formatter. *)
Definition supported : list string := ["json"; "xml"; "html"].

(** The sizes of the bodies of the calls that could be read. *)
Fixpoint bodySizes (rs : list (Z * Request)) : list Z :=
  match rs with
  | [] => []
  | (_, r) :: rs' =>
      match ReqBody r with
      | Readable data => Z.of_nat (length data) :: bodySizes rs'
      | Unreadable _ _ => bodySizes rs'
      end
  end.

(** The largest element of a list of sizes, 0 for the empty list. *)
Definition largest (sizes : list Z) : Z := foldr Z.max 0 sizes.

(** A request on [/format] with the given [type] value and body. *)
Definition post (type : option string) (body : Body) : Request :=
  mkRequest "POST" "/format"
    (match type with Some t => {[ "type" := [t] ]} | None => ∅ end) body.

(** A request without [type] has arrived and its handler has recorded the
    error; the update of the middleware has not run yet. *)
Definition between_error_and_update : Server :=
  mkServer (mkMetrics 0 1 0 0) [[RecordRequest 5 0]].

(** ** The service before the metrics were added

    The second source file is the same program without the accumulator:
    its formatters are the ones above, its handler writes the same
    replies and has no critical section, and [main] listens on a fixed
    port. *)

Module Part000.
Section Service.
Context `{C : Codecs}.

Definition formatHandler (w : ResponseWriter) (r : Request) : ResponseWriter :=
  let contentType := ToLower (Values_Get (Query r) "type") in
  if decide (contentType = EmptyString) then
    http_Error w "Missing 'type' parameter. Specify 'json', 'xml', or 'html'."
               StatusBadRequest
  else
    match ioutil_ReadAll (ReqBody r) with
    | (_, Some err) =>
        http_Error w "Failed to read request body" StatusBadRequest
    | (body, None) =>
        match dispatch contentType body with
        | None =>
            http_Error w
              "Invalid 'type' parameter. Supported types are 'json', 'xml', and 'html'."
              StatusBadRequest
        | Some (Err err) =>
            http_Error w ("Formatting failed: " +:+ err)
                       StatusInternalServerError
        | Some (Ok formattedData) =>
            Write formattedData
              (WriteHeader StatusOK
                 (Header_Set "Content-Type" "text/plain; charset=utf-8" w))
        end
    end.

End Service.
End Part000.

(** ** Sequences of calls and received requests *)

(** The critical sections of one call, in program order. *)
Definition ops_of `{C : Codecs} (er : Z * Request) : list MetricsOp :=
  snd (serveFormat (fst er) emptyResponse (snd er)).

(** The durations measured for the calls whose body could be read. *)
Fixpoint elapsedReadable (rs : list (Z * Request)) : list Z :=
  match rs with
  | [] => []
  | (elapsed, r) :: rs' =>
      match ReqBody r with
      | Readable _ => elapsed :: elapsedReadable rs'
      | Unreadable _ _ => elapsedReadable rs'
      end
  end.

Definition sumZ (zs : list Z) : Z := foldr Z.add 0 zs.

(** The body of the call could be read and the handler replied 200. *)
Definition repliedOK `{C : Codecs} (er : Z * Request) : bool :=
  match ReqBody (snd er) with
  | Readable _ =>
      bool_decide (Status (fst (formatHandler emptyResponse (snd er)))
                   = Some StatusOK)
  | Unreadable _ _ => false
  end.

(** The body of the call could be read and the handler replied with
    another status than 200. *)
Definition repliedError `{C : Codecs} (er : Z * Request) : bool :=
  match ReqBody (snd er) with
  | Readable _ =>
      negb (bool_decide (Status (fst (formatHandler emptyResponse (snd er)))
                         = Some StatusOK))
  | Unreadable _ _ => false
  end.

(** The number of calls of a sequence that satisfy a test. *)
Fixpoint count_calls (test : Z * Request -> bool) (rs : list (Z * Request)) : Z :=
  match rs with
  | [] => 0
  | er :: rs' => (if test er then 1 else 0) + count_calls test rs'
  end.

(** The steps of [step], with the requests received so far in the order
    of their arrival. *)
Inductive received `{C : Codecs} : list (Z * Request) -> Server -> Prop :=
| received_boot : received [] boot
| received_arrive rs s elapsed r :
    received rs s ->
    received (rs ++ [(elapsed, r)])
      (mkServer (metrics s)
         (inflight s ++ [snd (serveFormat elapsed emptyResponse r)]))
| received_run rs s i op rest :
    received rs s ->
    inflight s !! i = Some (op :: rest) ->
    received rs
      (mkServer (run_op op (metrics s)) (<[i := rest]> (inflight s))).

(** No request in flight has a critical section left to execute. *)
Definition quiescent (s : Server) : Prop :=
  Forall (fun t => t = []) (inflight s).

(** * Properties *)

(** ** Arithmetic on [int64] *)

Lemma wrap64_id z : in_int64 z -> wrap64 z = z.
Proof.
  unfold in_int64, int64_min, int64_max, wrap64. intros Hz.
  rewrite Z.mod_small; lia.
Qed.

Lemma wrap64_range z : in_int64 (wrap64 z).
Proof.
  unfold in_int64, int64_min, int64_max, wrap64.
  pose proof (Z.mod_pos_bound (z + 2 ^ 63) (2 ^ 64)). lia.
Qed.

Lemma wrap64_succ z : 0 <= z < int64_max -> wrap64 (z + 1) = z + 1.
Proof.
  intros Hz. apply wrap64_id. unfold in_int64, int64_min, int64_max in *. lia.
Qed.

(** ** The formatters *)

Section FormatterFacts.
Context `{C : Codecs}.

Lemma formatJSON_Ok data out :
  formatJSON data = Ok out <->
  exists parsedJSON,
    json_Unmarshal data = Ok parsedJSON /\
    json_MarshalIndent parsedJSON EmptyString "  " = Ok out.
Proof.
  unfold formatJSON. split.
  - destruct (json_Unmarshal data) as [v|e]; [|discriminate].
    destruct (json_MarshalIndent v EmptyString "  ") as [o|e] eqn:E; [|discriminate].
    intros [= <-]. eauto.
  - intros (v & -> & ->). reflexivity.
Qed.

Lemma formatXML_Ok data out :
  formatXML data = Ok out <->
  exists parsedXML formattedXML,
    xml_Unmarshal data = Ok parsedXML /\
    xml_MarshalIndent parsedXML EmptyString "  " = Ok formattedXML /\
    out = formattedXML ++ [newline].
Proof.
  unfold formatXML. split.
  - destruct (xml_Unmarshal data) as [v|e]; [|discriminate].
    destruct (xml_MarshalIndent v EmptyString "  ") as [o|e] eqn:E; [|discriminate].
    intros [= <-]. eauto.
  - intros (v & o & -> & -> & ->). reflexivity.
Qed.

(** formatXML fails exactly when one of the two library calls does. *)
Lemma formatXML_Err data :
  (exists msg, formatXML data = Err msg) <->
  (exists err, xml_Unmarshal data = Err err) \/
  (exists parsedXML err,
     xml_Unmarshal data = Ok parsedXML /\
     xml_MarshalIndent parsedXML EmptyString "  " = Err err).
Proof.
  unfold formatXML. split.
  - intros [msg H]. destruct (xml_Unmarshal data) as [v|e]; [|eauto].
    destruct (xml_MarshalIndent v EmptyString "  ") as [o|e] eqn:E; [discriminate|].
    right. eauto.
  - intros [[e ->] | (v & e & -> & ->)]; eauto.
Qed.

End FormatterFacts.

(** C8: when formatXML succeeds, its output is what the XML serializer
    returned for the parsed value with an empty prefix and a two-space
    indent, followed by one newline byte; so the output ends in a
    newline. *)
Theorem formatXML_output_newline `{C : Codecs} (data out : list byte) :
  formatXML data = Ok out ->
  (exists parsedXML formattedXML,
     xml_Unmarshal data = Ok parsedXML /\
     xml_MarshalIndent parsedXML EmptyString "  " = Ok formattedXML /\
     out = formattedXML ++ [newline]) /\
  last out = Some newline.
Proof.
  intros H. apply formatXML_Ok in H as (v & o & Hv & Ho & ->).
  split; [eauto |]. apply last_snoc.
Qed.

Lemma formatXML_output_newline_witness :
  formatXML (C := echo_codecs) [x3c; x61; x2f; x3e]
    = Ok [x3c; x61; x2f; x3e; x0a] /\
  last [x3c; x61; x2f; x3e; x0a] = Some newline.
Proof.
  split; [reflexivity |].
  apply (formatXML_output_newline (C := echo_codecs) [x3c; x61; x2f; x3e]).
  reflexivity.
Defined.

(** ** Critical sections of one call *)

Section CallFacts.
Context `{C : Codecs}.

(** The handler executes no critical section, or records one error. *)
Lemma formatHandler_ops w r :
  snd (formatHandler w r) = [] \/ snd (formatHandler w r) = [RecordError].
Proof.
  unfold formatHandler.
  destruct (decide (ToLower (Values_Get (Query r) "type") = EmptyString)); [by right |].
  destruct (ioutil_ReadAll (ReqBody r)) as [body [err|]]; [by right |].
  destruct (dispatch _ body) as [[out|err]|]; simpl; auto.
Qed.

Lemma serveFormat_unreadable elapsed w r partial err :
  ReqBody r = Unreadable partial err ->
  serveFormat elapsed w r
  = (http_Error w "Failed to read request body" StatusBadRequest, []).
Proof.
  intros Hb. unfold serveFormat, Logger, FormatMetricsMiddleware.
  by rewrite Hb.
Qed.

Lemma serveFormat_readable elapsed w r data :
  ReqBody r = Readable data ->
  serveFormat elapsed w r
  = (fst (formatHandler w r),
     snd (formatHandler w r) ++ [RecordRequest elapsed (Z.of_nat (length data))]).
Proof.
  intros Hb. unfold serveFormat, Logger, FormatMetricsMiddleware.
  rewrite Hb. simpl.
  replace (mkRequest (Method r) (Path r) (Query r) (Readable data)) with r
    by (destruct r; simpl in *; congruence).
  by destruct (formatHandler w r).
Qed.

Lemma call_unreadable m elapsed r partial err :
  ReqBody r = Unreadable partial err ->
  call m elapsed r
  = (http_Error emptyResponse "Failed to read request body" StatusBadRequest, m).
Proof.
  intros Hb. unfold call. by rewrite (serveFormat_unreadable _ _ _ _ _ Hb).
Qed.

Lemma call_readable m elapsed r data :
  ReqBody r = Readable data ->
  call m elapsed r
  = (fst (formatHandler emptyResponse r),
     recordRequest elapsed (Z.of_nat (length data))
       (run_ops (snd (formatHandler emptyResponse r)) m)).
Proof.
  intros Hb. unfold call. rewrite (serveFormat_readable _ _ _ _ Hb).
  unfold run_ops. by rewrite fold_left_app.
Qed.

Lemma run_ops_handler_MaxPayloadSize w r m :
  MaxPayloadSize (run_ops (snd (formatHandler w r)) m) = MaxPayloadSize m.
Proof. by destruct (formatHandler_ops w r) as [-> | ->]. Qed.

Lemma run_ops_handler_RequestCount w r m :
  RequestCount (run_ops (snd (formatHandler w r)) m) = RequestCount m.
Proof. by destruct (formatHandler_ops w r) as [-> | ->]. Qed.

Lemma call_MaxPayloadSize m elapsed r :
  MaxPayloadSize (snd (call m elapsed r))
  = match ReqBody r with
    | Readable data => Z.max (MaxPayloadSize m) (Z.of_nat (length data))
    | Unreadable _ _ => MaxPayloadSize m
    end.
Proof.
  destruct (ReqBody r) as [data | partial err] eqn:Hb.
  - rewrite (call_readable _ _ _ _ Hb). simpl.
    rewrite run_ops_handler_MaxPayloadSize.
    destruct (Z.gtb_spec (Z.of_nat (length data)) (MaxPayloadSize m)); lia.
  - by rewrite (call_unreadable _ _ _ _ _ Hb).
Qed.

Lemma largest_nonneg sizes : 0 <= largest sizes.
Proof. induction sizes as [| x xs IH]; simpl; lia. Qed.

Lemma calls_MaxPayloadSize m rs :
  0 <= MaxPayloadSize m ->
  MaxPayloadSize (calls m rs) = Z.max (MaxPayloadSize m) (largest (bodySizes rs)).
Proof.
  revert m. induction rs as [| [elapsed r] rs IH]; intros m Hm; simpl.
  - lia.
  - rewrite IH; rewrite call_MaxPayloadSize; destruct (ReqBody r); simpl; lia.
Qed.

End CallFacts.

Lemma largest_upper sizes x : x ∈ sizes -> x <= largest sizes.
Proof.
  induction 1 as [x xs | x y xs _ IH]; simpl; lia.
Qed.

Lemma largest_elem sizes :
  sizes <> [] -> (forall x, x ∈ sizes -> 0 <= x) -> largest sizes ∈ sizes.
Proof.
  induction sizes as [| x xs IH]; [done |]. intros _ Hpos. simpl.
  destruct xs as [| y ys].
  - simpl. rewrite Z.max_l; [left |]. apply Hpos. left.
  - destruct (Z.max_spec x (largest (y :: ys))) as [[_ ->] | [_ ->]].
    + right. apply IH; [done |]. intros z Hz. apply Hpos. by right.
    + left.
Qed.

Lemma bodySizes_nonneg rs x : x ∈ bodySizes rs -> 0 <= x.
Proof.
  induction rs as [| [elapsed r] rs IH]; simpl.
  - by intros ?%elem_of_nil.
  - destruct (ReqBody r); [| done].
    intros [-> | ?]%elem_of_cons; [lia | auto].
Qed.

(** C7: the update of the middleware never lowers the maximum payload
    size, no other critical section changes it, and after any sequence of
    calls on a fresh accumulator it is the largest size among the bodies
    received: at least every one of them and, when there is one, equal to
    one of them. *)
Theorem MaxPayloadSize_largest_body :
  (forall duration payloadSize m,
     MaxPayloadSize m <= MaxPayloadSize (recordRequest duration payloadSize m)) /\
  (forall op m, MaxPayloadSize m <= MaxPayloadSize (run_op op m)) /\
  (forall (C : Codecs) (rs : list (Z * Request)),
     let m := calls formatMetrics rs in
     MaxPayloadSize m = largest (bodySizes rs) /\
     (forall x, x ∈ bodySizes rs -> x <= MaxPayloadSize m) /\
     (bodySizes rs <> [] -> MaxPayloadSize m ∈ bodySizes rs)).
Proof.
  assert (Hrec : forall d p m, MaxPayloadSize m <= MaxPayloadSize (recordRequest d p m)).
  { intros d p m. simpl. destruct (Z.gtb_spec p (MaxPayloadSize m)); lia. }
  split; [exact Hrec |]. split.
  - intros [| d p] m; [simpl; lia | apply (Hrec d p m)].
  - intros C rs m.
    assert (Hm : MaxPayloadSize m = largest (bodySizes rs)).
    { unfold m. rewrite calls_MaxPayloadSize by (simpl; lia).
      simpl. pose proof (largest_nonneg (bodySizes rs)). lia. }
    rewrite Hm. split; [done |]. split.
    + apply largest_upper.
    + intros Hne. apply largest_elem; [done | apply bodySizes_nonneg].
Qed.

Lemma MaxPayloadSize_largest_body_witness :
  let rs := [(5, post (Some "json") (Readable [x7b; x7d]));
             (7, post None (Readable [x61]));
             (9, post (Some "xml") (Unreadable [x3c; x61; x3e] "unexpected EOF"))] in
  bodySizes rs = [2; 1] /\
  MaxPayloadSize (calls (C := echo_codecs) formatMetrics rs) = 2 /\
  MaxPayloadSize (calls (C := echo_codecs) formatMetrics rs) ∈ bodySizes rs.
Proof.
  intros rs.
  destruct MaxPayloadSize_largest_body as (_ & _ & Hcalls).
  destruct (Hcalls echo_codecs rs) as (Heq & _ & Helem).
  split; [reflexivity |]. split.
  - exact Heq.
  - apply Helem. discriminate.
Defined.

(** ** Counters after a sequence of calls *)

Section CounterFacts.
Context `{C : Codecs}.

Lemma call_RequestCount m elapsed r :
  RequestCount (snd (call m elapsed r))
  = match ReqBody r with
    | Readable _ => wrap64 (RequestCount m + 1)
    | Unreadable _ _ => RequestCount m
    end.
Proof.
  destruct (ReqBody r) as [data | partial err] eqn:Hb.
  - rewrite (call_readable _ _ _ _ Hb). simpl.
    by rewrite run_ops_handler_RequestCount.
  - by rewrite (call_unreadable _ _ _ _ _ Hb).
Qed.

(** The request count after a sequence of calls is the number of calls
    whose body could be read, as long as the counter does not overflow. *)
Lemma calls_RequestCount m rs :
  0 <= RequestCount m ->
  RequestCount m + Z.of_nat (length rs) <= int64_max ->
  RequestCount (calls m rs) = RequestCount m + Z.of_nat (length (bodySizes rs)).
Proof.
  revert m. induction rs as [| [elapsed r] rs IH]; intros m H0 Hmax; simpl in *.
  - lia.
  - pose proof (call_RequestCount m elapsed r) as Hc.
    destruct (ReqBody r).
    + rewrite wrap64_succ in Hc by lia.
      rewrite IH; rewrite Hc; simpl length; lia.
    + rewrite IH; rewrite Hc; lia.
Qed.

Lemma call_TotalDuration_range m elapsed r :
  in_int64 (TotalDuration m) -> in_int64 (TotalDuration (snd (call m elapsed r))).
Proof.
  intros Hm. destruct (ReqBody r) as [data | partial err] eqn:Hb.
  - rewrite (call_readable _ _ _ _ Hb). simpl. apply wrap64_range.
  - by rewrite (call_unreadable _ _ _ _ _ Hb).
Qed.

Lemma calls_TotalDuration_range m rs :
  in_int64 (TotalDuration m) -> in_int64 (TotalDuration (calls m rs)).
Proof.
  revert m. induction rs as [| [elapsed r] rs IH]; intros m Hm; simpl; [done |].
  apply IH, call_TotalDuration_range, Hm.
Qed.

End CounterFacts.

Lemma quot_range t c : in_int64 t -> 0 < c -> in_int64 (Z.quot t c).
Proof.
  unfold in_int64, int64_min, int64_max. intros Ht Hc.
  destruct (Z.le_gt_cases 0 t) as [Hpos | Hneg].
  - pose proof (Z.quot_pos t c Hpos Hc).
    assert (Z.quot t c <= t) by (apply Z.quot_le_upper_bound; nia). lia.
  - assert (Hq : Z.quot t c = - Z.quot (- t) c) by (rewrite Z.quot_opp_l; lia).
    assert (0 <= Z.quot (- t) c) by (apply Z.quot_pos; lia).
    assert (Z.quot (- t) c <= - t) by (apply Z.quot_le_upper_bound; nia). lia.
Qed.

Lemma averageDuration_run_guarded m :
  averageDuration_run m
  = Some (if RequestCount m >? 0
          then wrap64 (Z.quot (TotalDuration m) (RequestCount m))
          else 0).
Proof.
  unfold averageDuration_run, int64_div.
  destruct (Z.gtb_spec (RequestCount m) 0); [| done].
  by rewrite decide_False by lia.
Qed.

Lemma averageDuration_guarded m :
  averageDuration m
  = if RequestCount m >? 0
    then wrap64 (Z.quot (TotalDuration m) (RequestCount m))
    else 0.
Proof. unfold averageDuration. by rewrite averageDuration_run_guarded. Qed.

(** C6: MetricsHandler never divides by zero: the division, which panics
    on a zero divisor, is reached only with a positive request count, so
    the handler always returns its snapshot. The snapshot reports average
    0 when the request count is 0, where the unguarded division would
    panic, and the total duration divided by the request count (as whole
    milliseconds) when it is positive. After any sequence of fewer than
    2^63 calls the count is 0 or positive and the total is an [int64], so
    these are all the cases. Before any call the snapshot holds request
    count 0, error count 0 and average 0. *)
Theorem MetricsHandler_average :
  (forall m, MetricsHandler_run m = Some (MetricsHandler m)) /\
  (forall m, RequestCount m = 0 ->
     int64_div (TotalDuration m) (RequestCount m) = None /\
     averageDuration_run m = Some 0 /\
     average_duration_ms (MetricsHandler m) = 0) /\
  (forall m, 0 < RequestCount m -> in_int64 (TotalDuration m) ->
     averageDuration_run m = int64_div (TotalDuration m) (RequestCount m) /\
     averageDuration_run m = Some (Z.quot (TotalDuration m) (RequestCount m)) /\
     average_duration_ms (MetricsHandler m)
     = Milliseconds (Z.quot (TotalDuration m) (RequestCount m))) /\
  (forall (C : Codecs) (rs : list (Z * Request)),
     Z.of_nat (length rs) <= int64_max ->
     0 <= RequestCount (calls formatMetrics rs) /\
     in_int64 (TotalDuration (calls formatMetrics rs))) /\
  MetricsHandler_run formatMetrics = Some (mkSnapshot 0 0 0 0 0).
Proof.
  split; [| split; [| split; [| split]]].
  - intros m. unfold MetricsHandler_run, MetricsHandler, averageDuration.
    by rewrite averageDuration_run_guarded.
  - intros m H0. split; [| split].
    + unfold int64_div. by rewrite decide_True.
    + rewrite averageDuration_run_guarded. by rewrite H0.
    + unfold MetricsHandler. cbn [average_duration_ms].
      rewrite averageDuration_guarded. by rewrite H0.
  - intros m Hpos Ht.
    assert (Hq : wrap64 (Z.quot (TotalDuration m) (RequestCount m))
                 = Z.quot (TotalDuration m) (RequestCount m)).
    { apply wrap64_id. by apply quot_range. }
    assert (Hg : (RequestCount m >? 0) = true) by (apply Z.gtb_lt; lia).
    split; [| split].
    + unfold averageDuration_run. by rewrite Hg.
    + rewrite averageDuration_run_guarded. by rewrite Hg, Hq.
    + unfold MetricsHandler. cbn [average_duration_ms].
      rewrite averageDuration_guarded. by rewrite Hg, Hq.
  - intros C rs Hlen. split.
    + rewrite calls_RequestCount; simpl; lia.
    + apply calls_TotalDuration_range. by vm_compute.
  - reflexivity.
Qed.

Lemma MetricsHandler_average_witness :
  average_duration_ms (MetricsHandler (mkMetrics 0 0 0 0)) = 0 /\
  average_duration_ms (MetricsHandler (mkMetrics 2 1 3000000 7)) = 1 /\
  0 <= RequestCount
         (calls (C := echo_codecs) formatMetrics
            [(5, post (Some "json") (Readable [x7b; x7d]))]).
Proof.
  destruct MetricsHandler_average as (_ & Hzero & Hpos & Hreach & _).
  split; [| split].
  - apply (Hzero (mkMetrics 0 0 0 0)). reflexivity.
  - apply (Hpos (mkMetrics 2 1 3000000 7)); vm_compute; [reflexivity | split; discriminate].
  - apply (Hreach echo_codecs [(5, post (Some "json") (Readable [x7b; x7d]))]).
    vm_compute. discriminate.
Defined.

(** ** The listening port *)

(** C10: the port depends on the environment through the variable PORT
    only; when PORT is unset or empty the server listens on 8030, and
    otherwise on the value of PORT. *)
Theorem port_from_PORT :
  (forall env : gmap string string,
     env !! "PORT" = None \/ env !! "PORT" = Some EmptyString ->
     port env = "8030" /\ listenAddr env = ":8030") /\
  (forall (env : gmap string string) p,
     env !! "PORT" = Some p -> p <> EmptyString ->
     port env = p /\ listenAddr env = ":" +:+ p) /\
  (forall env env' : gmap string string,
     env !! "PORT" = env' !! "PORT" -> listenAddr env = listenAddr env').
Proof.
  unfold listenAddr, port, os_Getenv. repeat split.
  - by destruct H as [-> | ->].
  - by destruct H as [-> | ->].
  - rewrite H. simpl. by destruct (decide (p = EmptyString)).
  - rewrite H. simpl. by destruct (decide (p = EmptyString)).
  - intros env env' ->. done.
Qed.

Lemma port_from_PORT_witness :
  port (∅ : gmap string string) = "8030" /\
  listenAddr ({[ "PORT" := EmptyString ]} : gmap string string) = ":8030" /\
  listenAddr ({[ "PORT" := "9000"; "HOME" := "/root" ]} : gmap string string) = ":9000".
Proof.
  destruct port_from_PORT as (Hdef & Hset & _).
  split; [| split].
  - apply (Hdef ∅). left. reflexivity.
  - apply (Hdef {[ "PORT" := EmptyString ]}). right. reflexivity.
  - apply (Hset {[ "PORT" := "9000"; "HOME" := "/root" ]} "9000");
      [reflexivity | discriminate].
Defined.

(** ** Replies of the handler *)

Lemma http_Error_Status w error code :
  Status w = None -> Status (http_Error w error code) = Some code.
Proof. intros Hw. unfold http_Error, Write, WriteHeader. simpl. by rewrite Hw. Qed.

Lemma http_Error_Written w error code :
  Written (http_Error w error code)
  = Written w ++ list_byte_of_string error ++ [newline].
Proof.
  unfold http_Error, Write, WriteHeader. simpl.
  destruct (Status w) eqn:Hw; simpl; by rewrite ?Hw.
Qed.

Lemma Values_Get_absent (v : gmap string (list string)) key :
  v !! key = None -> Values_Get v key = EmptyString.
Proof. intros H. unfold Values_Get. by rewrite H. Qed.

Lemma dispatch_unsupported `{C : Codecs} contentType body :
  contentType ∉ supported -> dispatch contentType body = None.
Proof.
  intros Hn. unfold dispatch, supported in *.
  repeat (case_decide; [subst; exfalso; apply Hn;
                        apply (bool_decide_unpack _); by vm_compute |]).
  done.
Qed.

Lemma empty_unsupported : EmptyString ∉ supported.
Proof. apply (bool_decide_unpack _). by vm_compute. Qed.

Lemma recordError_ErrorCount m :
  0 <= ErrorCount m < int64_max ->
  ErrorCount (run_ops [RecordError] m) = ErrorCount m + 1.
Proof. intros H. simpl. by apply wrap64_succ. Qed.

(** With a [type] outside the supported ones the handler replies 400 and
    records one error, whatever the body is. *)
Lemma formatHandler_unsupported `{C : Codecs} w r :
  ToLower (Values_Get (Query r) "type") ∉ supported ->
  exists error,
    formatHandler w r = (http_Error w error StatusBadRequest, [RecordError]).
Proof.
  intros Hn. unfold formatHandler.
  case_decide; [eauto |].
  destruct (ioutil_ReadAll (ReqBody r)) as [body [err|]]; [eauto |].
  rewrite (dispatch_unsupported _ _ Hn). eauto.
Qed.

(** The reply in that case does not depend on the formatters. *)
Lemma formatHandler_unsupported_any (C C' : Codecs) w r :
  ToLower (Values_Get (Query r) "type") ∉ supported ->
  formatHandler (C := C') w r = formatHandler (C := C) w r.
Proof.
  intros Hn. unfold formatHandler.
  case_decide; [done |].
  destruct (ioutil_ReadAll (ReqBody r)) as [body [err|]]; [done |].
  by rewrite !(dispatch_unsupported _ _ Hn).
Qed.

(** X14: called on a request without [type], the handler replies 400 with
    the message about the missing parameter and records one error; when
    the lowercased value is none of json, xml, html it replies 400 and
    records one error, and the reply is the same for every choice of
    formatters, so none is invoked. Through the middleware, for a
    request whose body can be read, the call replies 400 and the error
    count goes up by one. *)
Theorem formatHandler_type_rejected `{C : Codecs}
    (w : ResponseWriter) (r : Request) :
  Status w = None ->
  (Query r !! "type" = None ->
     formatHandler w r
     = (http_Error w "Missing 'type' parameter. Specify 'json', 'xml', or 'html'."
                   StatusBadRequest,
        [RecordError]) /\
     Status (fst (formatHandler w r)) = Some StatusBadRequest) /\
  (ToLower (Values_Get (Query r) "type") ∉ supported ->
     Status (fst (formatHandler w r)) = Some StatusBadRequest /\
     snd (formatHandler w r) = [RecordError] /\
     (forall C' : Codecs, formatHandler (C := C') w r = formatHandler w r)) /\
  (forall m, 0 <= ErrorCount m < int64_max ->
     ErrorCount (run_ops [RecordError] m) = ErrorCount m + 1) /\
  (forall m elapsed data,
     ReqBody r = Readable data ->
     Query r !! "type" = None \/ ToLower (Values_Get (Query r) "type") ∉ supported ->
     0 <= ErrorCount m < int64_max ->
     Status (fst (call m elapsed r)) = Some StatusBadRequest /\
     ErrorCount (snd (call m elapsed r)) = ErrorCount m + 1).
Proof.
  intros Hw.
  assert (Habs : Query r !! "type" = None ->
                 ToLower (Values_Get (Query r) "type") = EmptyString).
  { intros H. by rewrite (Values_Get_absent _ _ H). }
  assert (Hstat : forall w', Status w' = None ->
            ToLower (Values_Get (Query r) "type") ∉ supported ->
            Status (fst (formatHandler w' r)) = Some StatusBadRequest /\
            snd (formatHandler w' r) = [RecordError]).
  { intros w' Hw' Hn. destruct (formatHandler_unsupported w' r Hn) as [e ->].
    split; [by apply http_Error_Status | done]. }
  split; [| split; [| split]].
  - intros H. apply Habs in H.
    assert (Heq : formatHandler w r
       = (http_Error w "Missing 'type' parameter. Specify 'json', 'xml', or 'html'."
                     StatusBadRequest, [RecordError])).
    { unfold formatHandler. by rewrite decide_True. }
    split; [exact Heq |]. rewrite Heq. by apply http_Error_Status.
  - intros Hn. destruct (Hstat w Hw Hn) as [Hs Ho].
    split; [done | split; [done |]].
    intros C'. by apply formatHandler_unsupported_any.
  - apply recordError_ErrorCount.
  - intros m elapsed data Hb Hbad Hm.
    assert (Hn : ToLower (Values_Get (Query r) "type") ∉ supported).
    { destruct Hbad as [H | H]; [| done].
      rewrite (Habs H). apply empty_unsupported. }
    rewrite (call_readable _ _ _ _ Hb). simpl fst. simpl snd.
    destruct (Hstat emptyResponse eq_refl Hn) as [Hs Ho].
    split; [done |]. rewrite Ho. simpl. by apply wrap64_succ.
Qed.

Lemma formatHandler_type_rejected_witness :
  Status (fst (formatHandler (C := echo_codecs) emptyResponse
                 (post None (Readable [x7b; x7d]))))
  = Some StatusBadRequest /\
  snd (formatHandler (C := echo_codecs) emptyResponse
         (post (Some "YAML") (Readable [x7b; x7d])))
  = [RecordError] /\
  ErrorCount (snd (call (C := echo_codecs) formatMetrics 5
                     (post (Some "YAML") (Readable [x7b; x7d])))) = 0 + 1.
Proof.
  destruct (formatHandler_type_rejected (C := echo_codecs) emptyResponse
              (post None (Readable [x7b; x7d])) eq_refl)
    as (Habsent & _).
  destruct (formatHandler_type_rejected (C := echo_codecs) emptyResponse
              (post (Some "YAML") (Readable [x7b; x7d])) eq_refl)
    as (_ & Hbad & _ & Hcall).
  assert (Hyaml : ToLower (Values_Get
                    (Query (post (Some "YAML") (Readable [x7b; x7d]))) "type")
                  ∉ supported).
  { apply (bool_decide_unpack _). by vm_compute. }
  split; [| split].
  - apply Habsent. reflexivity.
  - apply Hbad. exact Hyaml.
  - apply (Hcall formatMetrics 5 [x7b; x7d]).
    + reflexivity.
    + right. exact Hyaml.
    + vm_compute. split; [discriminate | reflexivity].
Defined.

(** ** Requests whose body cannot be read *)

(** Called directly on a request whose body cannot be read, the handler
    records one error: on the missing [type], or on the failed read. *)
Lemma formatHandler_unreadable `{C : Codecs} w meth path query partial err :
  snd (formatHandler w (mkRequest meth path query (Unreadable partial err)))
  = [RecordError].
Proof. unfold formatHandler. simpl. by case_decide. Qed.

(** When every body can be read, every call is counted once, whether it
    succeeds or fails. *)
Lemma calls_RequestCount_readable `{C : Codecs} rs :
  Forall (fun er => exists data, ReqBody (snd er) = Readable data) rs ->
  Z.of_nat (length rs) <= int64_max ->
  RequestCount (calls formatMetrics rs) = Z.of_nat (length rs).
Proof.
  intros Hall Hlen. rewrite calls_RequestCount by (simpl; lia). simpl.
  assert (Hsame : length (bodySizes rs) = length rs).
  { clear Hlen. induction Hall as [| [elapsed r] rs [data Hb] _ IH]; [done |].
    simpl in *. rewrite Hb. simpl. by rewrite IH. }
  by rewrite Hsame.
Qed.

(** C2, at a failed call: a request on [/format] whose body cannot be
    read is answered 400 by the middleware and leaves the request count
    as it was; one such call on a fresh accumulator gives request
    count 0. *)
Theorem unreadable_body_request_not_counted `{C : Codecs}
    (m : FormatAPIMetrics) (elapsed : Z) (meth path : string)
    (query : gmap string (list string)) (partial : list byte) (err : string) :
  let r := mkRequest meth path query (Unreadable partial err) in
  Status (fst (call m elapsed r)) = Some StatusBadRequest /\
  RequestCount (snd (call m elapsed r)) = RequestCount m /\
  RequestCount (calls formatMetrics [(elapsed, r)]) = 0.
Proof.
  intros r. simpl calls.
  rewrite !(call_unreadable _ elapsed r partial err eq_refl). done.
Qed.

(** C4, at a request whose body cannot be read: the middleware answers
    400 and the error count stays as it was, although the handler, called
    on the same request, records one error. *)
Theorem unreadable_body_error_not_recorded `{C : Codecs}
    (m : FormatAPIMetrics) (elapsed : Z) (meth path : string)
    (query : gmap string (list string)) (partial : list byte) (err : string) :
  let r := mkRequest meth path query (Unreadable partial err) in
  Status (fst (call m elapsed r)) = Some StatusBadRequest /\
  snd (call m elapsed r) = m /\
  ErrorCount (snd (call m elapsed r)) = ErrorCount m /\
  snd (formatHandler emptyResponse r) = [RecordError].
Proof.
  intros r.
  rewrite !(call_unreadable _ elapsed r partial err eq_refl).
  repeat split. apply formatHandler_unreadable.
Qed.

(** C5, at a request without [type], or with an unsupported one, whose
    body cannot be read: the middleware answers 400 with "Failed to read
    request body" before the handler reads [type], and the error count
    stays as it was, for every [type]; the handler, called on the same
    request, replies 400 and records one error, with the message about
    the missing parameter when [type] is absent. *)
Theorem bad_type_unreadable_body_not_recorded `{C : Codecs}
    (m : FormatAPIMetrics) (elapsed : Z) (partial : list byte) (err : string) :
  (forall type : option string,
     let r := post type (Unreadable partial err) in
     fst (call m elapsed r)
     = http_Error emptyResponse "Failed to read request body" StatusBadRequest /\
     Status (fst (call m elapsed r)) = Some StatusBadRequest /\
     ErrorCount (snd (call m elapsed r)) = ErrorCount m /\
     snd (formatHandler emptyResponse r) = [RecordError]) /\
  formatHandler emptyResponse (post None (Unreadable partial err))
  = (http_Error emptyResponse
       "Missing 'type' parameter. Specify 'json', 'xml', or 'html'."
       StatusBadRequest,
     [RecordError]) /\
  formatHandler emptyResponse (post (Some "yaml") (Unreadable partial err))
  = (http_Error emptyResponse "Failed to read request body" StatusBadRequest,
     [RecordError]).
Proof.
  split; [| split].
  - intros type r.
    rewrite !(call_unreadable m elapsed r partial err eq_refl).
    repeat split. apply formatHandler_unreadable.
  - reflexivity.
  - reflexivity.
Qed.

(** ** Interleaved requests *)

Lemma count_ops_nonneg kind t : 0 <= count_ops kind t.
Proof. induction t as [| op t IH]; simpl; [lia | destruct (kind op); lia]. Qed.

Lemma count_ops_app kind t1 t2 :
  count_ops kind (t1 ++ t2) = count_ops kind t1 + count_ops kind t2.
Proof. induction t1 as [| op t1 IH]; simpl; lia. Qed.

Lemma pending_nonneg kind ts : 0 <= pending kind ts.
Proof.
  induction ts as [| t ts IH]; simpl; [lia |].
  pose proof (count_ops_nonneg kind t). lia.
Qed.

Lemma pending_app kind ts t :
  pending kind (ts ++ [t]) = pending kind ts + count_ops kind t.
Proof. induction ts as [| t' ts IH]; simpl; lia. Qed.

(** Executing the next critical section of a request removes it from the
    pending ones. *)
Lemma pending_insert kind (ts : list (list MetricsOp)) i op rest :
  ts !! i = Some (op :: rest) ->
  pending kind ts
  = pending kind (<[i := rest]> ts) + (if kind op then 1 else 0).
Proof.
  revert i. induction ts as [| t ts IH]; intros [| i] Hi; simpl in *; try done.
  - injection Hi as ->. simpl. lia.
  - rewrite (IH i Hi). lia.
Qed.

(** A call records at most one error, and then it is counted later. *)
Lemma serveFormat_counts `{C : Codecs} elapsed w r :
  let t := snd (serveFormat elapsed w r) in
  count_ops is_error t <= count_ops is_request t <= 1.
Proof.
  destruct (ReqBody r) as [data | partial err] eqn:Hb.
  - rewrite (serveFormat_readable _ _ _ _ Hb). simpl.
    rewrite !count_ops_app.
    destruct (formatHandler_ops w r) as [-> | ->]; simpl; lia.
  - rewrite (serveFormat_unreadable _ _ _ _ _ Hb). simpl. lia.
Qed.

(** The invariant of the interleaved executions, while the counters
    cannot overflow: the errors recorded and still to be recorded are at
    most the requests counted and still to be counted, which are at most
    the steps taken. *)
Lemma reach_invariant `{C : Codecs} n s :
  reach n s ->
  Z.of_nat n <= int64_max ->
  0 <= ErrorCount (metrics s) /\
  0 <= RequestCount (metrics s) /\
  ErrorCount (metrics s) + pending is_error (inflight s)
    <= RequestCount (metrics s) + pending is_request (inflight s) /\
  RequestCount (metrics s) + pending is_request (inflight s) <= Z.of_nat n.
Proof.
  induction 1 as [| n s s' Hreach IH Hstep]; intros Hn.
  - simpl. lia.
  - destruct IH as (He & Hr & Hle & Hsteps); [lia |].
    destruct Hstep as [s elapsed r | s i op rest Hi]; simpl.
    + rewrite !pending_app.
      pose proof (serveFormat_counts elapsed emptyResponse r) as Hc.
      simpl in Hc. lia.
    + pose proof (pending_insert is_error _ _ _ _ Hi) as Hpe.
      pose proof (pending_insert is_request _ _ _ _ Hi) as Hpr.
      pose proof (pending_nonneg is_error (<[i := rest]> (inflight s))).
      pose proof (pending_nonneg is_request (<[i := rest]> (inflight s))).
      destruct op as [| duration payloadSize]; simpl in *.
      * rewrite wrap64_succ by lia. lia.
      * rewrite wrap64_succ by lia. lia.
Qed.

Lemma reach_between_error_and_update :
  reach (C := echo_codecs) 2 between_error_and_update.
Proof.
  apply (reach_step 1 (mkServer formatMetrics [[RecordError; RecordRequest 5 0]])).
  - apply (reach_step 0 boot); [apply reach_boot |].
    exact (step_arrive boot 5 (post None (Readable []))).
  - exact (step_run (mkServer formatMetrics [[RecordError; RecordRequest 5 0]])
             0%nat RecordError [RecordRequest 5 0] eq_refl).
Qed.

(** C3, as stated, fails: in a state reached after one request without
    [type] and one critical section, the snapshot reports error count 1
    and request count 0. *)
Lemma snapshot_error_count_above_request_count :
  exists n s,
    reach (C := echo_codecs) n s /\
    request_count (MetricsHandler (metrics s))
      < error_count (MetricsHandler (metrics s)).
Proof.
  exists 2%nat, between_error_and_update.
  split; [apply reach_between_error_and_update | reflexivity].
Qed.

(** C3, amended: in every state reached by interleaving the critical
    sections of any requests (fewer than 2^63 steps), the error count is
    at most the request count plus the number of requests in flight that
    the middleware has not counted yet; so when every request received
    has been counted, the snapshot reports an error count that is at most
    the request count. *)
Theorem error_count_le_request_count_plus_uncounted `{C : Codecs}
    (n : nat) (s : Server) :
  reach n s ->
  Z.of_nat n <= int64_max ->
  ErrorCount (metrics s) <= RequestCount (metrics s) + uncounted s /\
  (uncounted s = 0 ->
   error_count (MetricsHandler (metrics s))
     <= request_count (MetricsHandler (metrics s))).
Proof.
  intros Hreach Hn.
  destruct (reach_invariant n s Hreach Hn) as (He & Hr & Hle & _).
  pose proof (pending_nonneg is_error (inflight s)).
  unfold uncounted. simpl. lia.
Qed.

Lemma error_count_le_request_count_plus_uncounted_witness :
  ErrorCount (metrics between_error_and_update)
    <= RequestCount (metrics between_error_and_update)
       + uncounted between_error_and_update.
Proof.
  apply (error_count_le_request_count_plus_uncounted (C := echo_codecs)
           2 between_error_and_update).
  - apply reach_between_error_and_update.
  - vm_compute. discriminate.
Defined.

(** * Further properties of the service *)

(** ** Replies of the handler, case by case *)

Lemma Write_fresh data w :
  Status w = None ->
  Write data (WriteHeader StatusOK w)
  = mkResponse (Header w) (Some StatusOK) (Written w ++ data).
Proof. intros Hw. unfold Write, WriteHeader. rewrite Hw. reflexivity. Qed.

Lemma dispatch_supported `{C : Codecs} contentType body :
  contentType ∈ supported ->
  dispatch contentType body
  = Some (if decide (contentType = "json") then formatJSON body
          else if decide (contentType = "xml") then formatXML body
          else formatHTML body).
Proof.
  unfold supported, dispatch. intros Hin.
  repeat (apply elem_of_cons in Hin as [-> | Hin]; [reflexivity |]).
  by apply elem_of_nil in Hin.
Qed.

(** X1: the switch of the handler selects formatJSON, formatXML and
    formatHTML for the lowercased types json, xml and html and nothing
    for any other value; when the selected formatter succeeds on a
    readable body, the handler replies 200 with the plain-text content
    type and exactly the formatted bytes, and records no error. Through
    the middleware the call is counted once and the error count is
    unchanged. *)
Theorem formatHandler_success `{C : Codecs}
    (w : ResponseWriter) (r : Request) (body out : list byte) :
  Status w = None ->
  ReqBody r = Readable body ->
  dispatch (ToLower (Values_Get (Query r) "type")) body = Some (Ok out) ->
  (dispatch "json" body = Some (formatJSON body) /\
   dispatch "xml" body = Some (formatXML body) /\
   dispatch "html" body = Some (formatHTML body) /\
   ToLower (Values_Get (Query r) "type") ∈ supported) /\
  formatHandler w r
  = (mkResponse (<["Content-Type" := "text/plain; charset=utf-8"]> (Header w))
                (Some StatusOK) (Written w ++ out),
     []) /\
  (forall m elapsed,
     fst (call m elapsed r)
     = mkResponse {["Content-Type" := "text/plain; charset=utf-8"]}
                  (Some StatusOK) out /\
     ErrorCount (snd (call m elapsed r)) = ErrorCount m /\
     RequestCount (snd (call m elapsed r)) = wrap64 (RequestCount m + 1)).
Proof.
  intros Hw Hb Hd.
  assert (Hne : ToLower (Values_Get (Query r) "type") <> EmptyString).
  { intros E. rewrite E in Hd. discriminate. }
  assert (Hh : forall w', Status w' = None ->
            formatHandler w' r
            = (mkResponse
                 (<["Content-Type" := "text/plain; charset=utf-8"]> (Header w'))
                 (Some StatusOK) (Written w' ++ out), [])).
  { intros w' Hw'. unfold formatHandler. rewrite decide_False by done.
    rewrite Hb. simpl. rewrite Hd.
    by rewrite Write_fresh by done. }
  split; [| split].
  - repeat split.
    destruct (decide (ToLower (Values_Get (Query r) "type") ∈ supported))
      as [Hin | Hn]; [done |].
    by rewrite (dispatch_unsupported _ _ Hn) in Hd.
  - by apply Hh.
  - intros m elapsed. rewrite (call_readable _ _ _ _ Hb).
    rewrite (Hh emptyResponse eq_refl). simpl. done.
Qed.

Lemma formatHandler_success_witness :
  formatHandler (C := echo_codecs) emptyResponse
    (post (Some "Html") (Readable [x3c; x70; x3e]))
  = (mkResponse {["Content-Type" := "text/plain; charset=utf-8"]}
                (Some StatusOK) [x3c; x70; x3e],
     []).
Proof.
  apply (formatHandler_success (C := echo_codecs) emptyResponse
           (post (Some "Html") (Readable [x3c; x70; x3e]))
           [x3c; x70; x3e] [x3c; x70; x3e]); reflexivity.
Defined.

(** X2: when the selected formatter fails on a readable body, the handler
    replies 500 with the text "Formatting failed: " followed by the
    formatter's message and a newline, and records one error; the
    formatter's message names the stage that failed, for instance
    "failed to parse JSON: " followed by the decoder's message. *)
Theorem formatHandler_formatter_failure `{C : Codecs}
    (w : ResponseWriter) (r : Request) (body : list byte) (err : string) :
  Status w = None ->
  ReqBody r = Readable body ->
  dispatch (ToLower (Values_Get (Query r) "type")) body = Some (Err err) ->
  formatHandler w r
  = (http_Error w ("Formatting failed: " +:+ err) StatusInternalServerError,
     [RecordError]) /\
  Status (fst (formatHandler w r)) = Some StatusInternalServerError /\
  Written (fst (formatHandler w r))
  = Written w ++ list_byte_of_string ("Formatting failed: " +:+ err) ++ [newline] /\
  (forall e, json_Unmarshal body = Err e ->
     formatJSON body = Err ("failed to parse JSON: " +:+ e)) /\
  (forall e, xml_Unmarshal body = Err e ->
     formatXML body = Err ("failed to parse XML: " +:+ e)) /\
  (forall e, html_Parse body = Err e ->
     formatHTML body = Err ("failed to parse HTML: " +:+ e)).
Proof.
  intros Hw Hb Hd.
  assert (Hne : ToLower (Values_Get (Query r) "type") <> EmptyString).
  { intros E. rewrite E in Hd. discriminate. }
  assert (Hh : formatHandler w r
    = (http_Error w ("Formatting failed: " +:+ err) StatusInternalServerError,
       [RecordError])).
  { unfold formatHandler. rewrite decide_False by done.
    rewrite Hb. simpl. by rewrite Hd. }
  rewrite Hh. cbn [fst snd].
  split; [done |]. split; [by apply http_Error_Status |].
  split; [apply http_Error_Written |].
  unfold formatJSON, formatXML, formatHTML.
  split; [| split]; intros e ->; reflexivity.
Qed.

Lemma formatHandler_formatter_failure_witness :
  Written (fst (formatHandler (C := echo_codecs) emptyResponse
                  (post (Some "json") (Readable []))))
  = list_byte_of_string
      "Formatting failed: failed to parse JSON: unexpected end of JSON input"
    ++ [newline].
Proof.
  apply (formatHandler_formatter_failure (C := echo_codecs) emptyResponse
           (post (Some "json") (Readable [])) []
           "failed to parse JSON: unexpected end of JSON input");
    reflexivity.
Defined.

(** X3: on a response with no status yet the handler always replies with
    status 200, 400 or 500, and it records an error exactly when the
    status is not 200: one error for every failed reply, none for a
    successful one. *)
Theorem formatHandler_error_iff_not_OK `{C : Codecs}
    (w : ResponseWriter) (r : Request) :
  Status w = None ->
  let reply := fst (formatHandler w r) in
  let ops := snd (formatHandler w r) in
  (Status reply = Some StatusOK \/
   Status reply = Some StatusBadRequest \/
   Status reply = Some StatusInternalServerError) /\
  (Status reply = Some StatusOK <-> ops = []) /\
  (Status reply <> Some StatusOK <-> ops = [RecordError]).
Proof.
  intros Hw. unfold formatHandler.
  case_decide.
  { cbn [fst snd]. rewrite http_Error_Status by done.
    split; [auto |]. split; split; done. }
  destruct (ioutil_ReadAll (ReqBody r)) as [body [err|]].
  { cbn [fst snd]. rewrite http_Error_Status by done.
    split; [auto |]. split; split; done. }
  destruct (dispatch _ body) as [[out|err]|]; cbn [fst snd].
  - rewrite Write_fresh by done. cbn [Status].
    split; [auto |]. split; split; done.
  - rewrite http_Error_Status by done.
    split; [auto |]. split; split; done.
  - rewrite http_Error_Status by done.
    split; [auto |]. split; split; done.
Qed.

Lemma formatHandler_error_iff_not_OK_witness :
  Status (fst (formatHandler (C := echo_codecs) emptyResponse
                 (post (Some "xml") (Readable []))))
    <> Some StatusOK
  <-> snd (formatHandler (C := echo_codecs) emptyResponse
             (post (Some "xml") (Readable []))) = [RecordError].
Proof.
  apply (formatHandler_error_iff_not_OK (C := echo_codecs) emptyResponse
           (post (Some "xml") (Readable [])) eq_refl).
Defined.

(** ** The [type] parameter is not case sensitive *)

Lemma lower_ascii_idempotent c : lower_ascii (lower_ascii c) = lower_ascii c.
Proof. by destruct c as [[] [] [] [] [] [] [] []]. Qed.

Lemma ToLower_idempotent s : ToLower (ToLower s) = ToLower s.
Proof.
  induction s as [| c s IH]; simpl; [done |].
  by rewrite lower_ascii_idempotent, IH.
Qed.

Lemma Values_Get_post t body :
  Values_Get (Query (post (Some t) body)) "type" = t.
Proof. unfold post, Values_Get. simpl. by rewrite lookup_singleton_eq. Qed.

(** X4: the handler uses the [type] value only through its lowercased
    form: two requests with the same body whose [type] values are equal
    up to the case of ASCII letters get the same reply, and a request
    gets the reply of the request with the lowercased value. *)
Theorem formatHandler_type_case_insensitive `{C : Codecs}
    (w : ResponseWriter) (body : Body) (t : string) :
  formatHandler w (post (Some t) body)
  = formatHandler w (post (Some (ToLower t)) body) /\
  (forall t', ToLower t' = ToLower t ->
     formatHandler w (post (Some t') body)
     = formatHandler w (post (Some t) body)).
Proof.
  assert (H : forall t1 t2, ToLower t1 = ToLower t2 ->
            formatHandler w (post (Some t1) body)
            = formatHandler w (post (Some t2) body)).
  { intros t1 t2 E. unfold formatHandler.
    rewrite !Values_Get_post, E. reflexivity. }
  split.
  - apply H. by rewrite ToLower_idempotent.
  - intros t' E. by apply H.
Qed.

Lemma formatHandler_type_case_insensitive_witness :
  formatHandler (C := echo_codecs) emptyResponse
    (post (Some "JsOn") (Readable [x7b; x7d]))
  = formatHandler (C := echo_codecs) emptyResponse
      (post (Some "json") (Readable [x7b; x7d])).
Proof.
  apply (formatHandler_type_case_insensitive (C := echo_codecs) emptyResponse
           (Readable [x7b; x7d]) "json").
  reflexivity.
Defined.

(** ** The middleware around any handler *)

(** X5: for every wrapped handler, when the body can be read the
    middleware passes on a request with the same method, path, query and
    body bytes, returns the handler's reply unchanged, and adds one
    update after the handler's critical sections, with the measured
    duration and the length of the body; when the body cannot be read the
    wrapped handler is not called: the result is the same for every
    handler. *)
Theorem FormatMetricsMiddleware_transparent
    (next : Handler) (elapsed : Z) (w : ResponseWriter) (r : Request) :
  (forall data, ReqBody r = Readable data ->
     FormatMetricsMiddleware next elapsed w r
     = (fst (next w r),
        snd (next w r) ++ [RecordRequest elapsed (Z.of_nat (length data))])) /\
  (forall partial err, ReqBody r = Unreadable partial err ->
     forall next' : Handler,
       FormatMetricsMiddleware next' elapsed w r
       = FormatMetricsMiddleware next elapsed w r).
Proof.
  unfold FormatMetricsMiddleware. split.
  - intros data Hb. rewrite Hb. simpl.
    replace (mkRequest (Method r) (Path r) (Query r) (Readable data)) with r
      by (destruct r; simpl in *; congruence).
    by destruct (next w r).
  - intros partial err Hb next'. by rewrite Hb.
Qed.

Lemma FormatMetricsMiddleware_transparent_witness :
  FormatMetricsMiddleware (fun w _ => (w, [RecordError])) 7 emptyResponse
    (post None (Readable [x61; x62; x63]))
  = (emptyResponse, [RecordError; RecordRequest 7 3]).
Proof.
  destruct (FormatMetricsMiddleware_transparent (fun w _ => (w, [RecordError])) 7
              emptyResponse (post None (Readable [x61; x62; x63])))
    as [Hread _].
  apply (Hread [x61; x62; x63]). reflexivity.
Defined.

(** ** The two versions of the handler *)

(** X6: for every request and response, the handler with metrics writes
    exactly the reply of the handler of the version without metrics. *)
Theorem formatHandler_reply_as_before `{C : Codecs}
    (w : ResponseWriter) (r : Request) :
  fst (formatHandler w r) = Part000.formatHandler w r.
Proof.
  unfold formatHandler, Part000.formatHandler.
  case_decide; [done |].
  destruct (ioutil_ReadAll (ReqBody r)) as [body [err|]]; [done |].
  by destruct (dispatch _ body) as [[out|err]|].
Qed.

(** ** Totals after a sequence of calls *)

Lemma wrap64_add_l a b : wrap64 (wrap64 a + b) = wrap64 (a + b).
Proof.
  unfold wrap64. f_equal.
  replace ((a + 2 ^ 63) mod 2 ^ 64 - 2 ^ 63 + b + 2 ^ 63)
    with ((a + 2 ^ 63) mod 2 ^ 64 + b) by lia.
  rewrite Zplus_mod_idemp_l. f_equal. lia.
Qed.

Lemma wrap64_add_r a b : wrap64 (a + wrap64 b) = wrap64 (a + b).
Proof. rewrite Z.add_comm, wrap64_add_l. f_equal. lia. Qed.

Section TotalFacts.
Context `{C : Codecs}.

Lemma run_ops_handler_TotalDuration w r m :
  TotalDuration (run_ops (snd (formatHandler w r)) m) = TotalDuration m.
Proof. by destruct (formatHandler_ops w r) as [-> | ->]. Qed.

Lemma call_TotalDuration m elapsed r :
  TotalDuration (snd (call m elapsed r))
  = match ReqBody r with
    | Readable _ => wrap64 (TotalDuration m + elapsed)
    | Unreadable _ _ => TotalDuration m
    end.
Proof.
  destruct (ReqBody r) as [data | partial err] eqn:Hb.
  - rewrite (call_readable _ _ _ _ Hb). simpl.
    by rewrite run_ops_handler_TotalDuration.
  - by rewrite (call_unreadable _ _ _ _ _ Hb).
Qed.

Lemma calls_TotalDuration m rs :
  in_int64 (TotalDuration m) ->
  TotalDuration (calls m rs)
  = wrap64 (TotalDuration m + sumZ (elapsedReadable rs)).
Proof.
  revert m. induction rs as [| [elapsed r] rs IH]; intros m Hm; simpl.
  - rewrite Z.add_0_r. by rewrite wrap64_id.
  - rewrite IH by (by apply call_TotalDuration_range).
    rewrite call_TotalDuration. destruct (ReqBody r); simpl; [| done].
    rewrite wrap64_add_l. f_equal. lia.
Qed.

(** The handler's critical sections, read off the status of its reply. *)
Lemma formatHandler_ops_by_status r :
  snd (formatHandler emptyResponse r)
  = if bool_decide (Status (fst (formatHandler emptyResponse r)) = Some StatusOK)
    then [] else [RecordError].
Proof.
  unfold formatHandler.
  case_decide; [done |].
  destruct (ioutil_ReadAll (ReqBody r)) as [body [err|]]; [done |].
  by destruct (dispatch _ body) as [[out|err]|].
Qed.

Lemma call_ErrorCount m elapsed r :
  ErrorCount (snd (call m elapsed r))
  = if repliedError (elapsed, r) then wrap64 (ErrorCount m + 1) else ErrorCount m.
Proof.
  unfold repliedError. simpl.
  destruct (ReqBody r) as [data | partial err] eqn:Hb.
  - rewrite (call_readable _ _ _ _ Hb). simpl.
    rewrite formatHandler_ops_by_status.
    by destruct (bool_decide _).
  - by rewrite (call_unreadable _ _ _ _ _ Hb).
Qed.

Lemma count_calls_nonneg test rs : 0 <= count_calls test rs.
Proof. induction rs as [| er rs IH]; simpl; [lia | destruct (test er); lia]. Qed.

Lemma count_calls_le_length test rs : count_calls test rs <= Z.of_nat (length rs).
Proof. induction rs as [| er rs IH]; simpl; [lia | destruct (test er); lia]. Qed.

Lemma calls_ErrorCount m rs :
  0 <= ErrorCount m ->
  ErrorCount m + Z.of_nat (length rs) <= int64_max ->
  ErrorCount (calls m rs) = ErrorCount m + count_calls repliedError rs.
Proof.
  revert m. induction rs as [| [elapsed r] rs IH]; intros m H0 Hmax; simpl in *.
  - lia.
  - pose proof (call_ErrorCount m elapsed r) as Hc.
    destruct (repliedError (elapsed, r)).
    + rewrite wrap64_succ in Hc by lia. rewrite IH; rewrite Hc; lia.
    + rewrite IH; rewrite Hc; lia.
Qed.

(** A call whose body could be read is answered 200 or not. *)
Lemma readable_replied rs :
  Z.of_nat (length (bodySizes rs))
  = count_calls repliedOK rs + count_calls repliedError rs.
Proof.
  induction rs as [| [elapsed r] rs IH]; simpl; [done |].
  unfold repliedOK at 1, repliedError at 1. cbn [snd].
  destruct (ReqBody r); [| lia].
  simpl length. destruct (bool_decide _); simpl; lia.
Qed.

End TotalFacts.

(** X7: after any sequence of calls on a fresh accumulator the total
    duration is the sum, reduced to an [int64], of the durations measured
    for the calls whose body could be read; it is that sum itself when
    the sum fits, and a call with a duration that is not negative does
    not lower the total as long as the total fits. *)
Theorem TotalDuration_sum `{C : Codecs} (rs : list (Z * Request)) :
  TotalDuration (calls formatMetrics rs) = wrap64 (sumZ (elapsedReadable rs)) /\
  (in_int64 (sumZ (elapsedReadable rs)) ->
   TotalDuration (calls formatMetrics rs) = sumZ (elapsedReadable rs) /\
   total_duration_ms (MetricsHandler (calls formatMetrics rs))
   = Z.quot (sumZ (elapsedReadable rs)) 1000000) /\
  (forall m elapsed r,
     in_int64 (TotalDuration m) -> 0 <= elapsed ->
     TotalDuration m + elapsed <= int64_max ->
     TotalDuration m <= TotalDuration (snd (call m elapsed r))).
Proof.
  assert (H : TotalDuration (calls formatMetrics rs)
              = wrap64 (sumZ (elapsedReadable rs))).
  { rewrite calls_TotalDuration by (by vm_compute). reflexivity. }
  split; [exact H |]. split.
  - intros Hin. simpl. rewrite H, wrap64_id by done. done.
  - intros m elapsed r Hm He Hmax. rewrite call_TotalDuration.
    destruct (ReqBody r); [| lia].
    rewrite wrap64_id; [lia |].
    unfold in_int64, int64_min, int64_max in *. lia.
Qed.

Lemma TotalDuration_sum_witness :
  let rs := [(1500000, post (Some "json") (Readable [x7b; x7d]));
             (9, post (Some "json") (Unreadable [] "unexpected EOF"));
             (2500000, post None (Readable []))] in
  TotalDuration (calls (C := echo_codecs) formatMetrics rs) = 4000000 /\
  total_duration_ms (MetricsHandler (calls (C := echo_codecs) formatMetrics rs)) = 4.
Proof.
  intros rs.
  destruct (TotalDuration_sum (C := echo_codecs) rs) as (_ & Hfit & _).
  apply Hfit. vm_compute. split; discriminate.
Defined.

(** X8: after any sequence of fewer than 2^63 calls on a fresh
    accumulator, the error count is the number of calls whose body could
    be read and that were not answered 200, the request count is the
    number of calls whose body could be read, answered 200 or not, and so
    the error count is at most the request count. *)
Theorem ErrorCount_failed_replies `{C : Codecs} (rs : list (Z * Request)) :
  Z.of_nat (length rs) <= int64_max ->
  ErrorCount (calls formatMetrics rs) = count_calls repliedError rs /\
  RequestCount (calls formatMetrics rs)
  = count_calls repliedOK rs + count_calls repliedError rs /\
  ErrorCount (calls formatMetrics rs) <= RequestCount (calls formatMetrics rs).
Proof.
  intros Hlen.
  rewrite calls_ErrorCount by (simpl; lia).
  rewrite calls_RequestCount by (simpl; lia).
  rewrite readable_replied. simpl.
  pose proof (count_calls_nonneg repliedOK rs). repeat split; lia.
Qed.

Lemma ErrorCount_failed_replies_witness :
  let rs := [(5, post (Some "json") (Readable [x7b; x7d]));
             (6, post (Some "json") (Unreadable [] "unexpected EOF"));
             (7, post None (Readable []));
             (8, post (Some "xml") (Readable []))] in
  ErrorCount (calls (C := echo_codecs) formatMetrics rs) = 2 /\
  RequestCount (calls (C := echo_codecs) formatMetrics rs) = 1 + 2 /\
  ErrorCount (calls (C := echo_codecs) formatMetrics rs)
    <= RequestCount (calls (C := echo_codecs) formatMetrics rs).
Proof.
  intros rs.
  apply (ErrorCount_failed_replies (C := echo_codecs) rs).
  vm_compute. discriminate.
Defined.

(** ** The snapshot *)

(** X9: when the request count is positive, the average reported in
    milliseconds is the total reported in milliseconds divided by the
    request count (truncated), so the fields of a snapshot agree; when
    moreover the total is not negative, the average lies between 0 and
    the total. *)
Theorem MetricsHandler_average_of_total (m : FormatAPIMetrics) :
  0 < RequestCount m ->
  in_int64 (TotalDuration m) ->
  average_duration_ms (MetricsHandler m)
  = Z.quot (total_duration_ms (MetricsHandler m)) (request_count (MetricsHandler m)) /\
  (0 <= TotalDuration m ->
   0 <= average_duration_ms (MetricsHandler m)
     <= total_duration_ms (MetricsHandler m)).
Proof.
  intros Hc Ht. unfold MetricsHandler.
  cbn [average_duration_ms total_duration_ms request_count].
  rewrite averageDuration_guarded. unfold Milliseconds.
  destruct (Z.gtb_spec (RequestCount m) 0); [| lia].
  rewrite wrap64_id by (by apply quot_range).
  assert (Heq : Z.quot (Z.quot (TotalDuration m) (RequestCount m)) 1000000
                = Z.quot (Z.quot (TotalDuration m) 1000000) (RequestCount m)).
  { rewrite !Z.quot_quot by lia. f_equal. lia. }
  split; [exact Heq |].
  intros Hpos. rewrite Heq.
  assert (0 <= Z.quot (TotalDuration m) 1000000) by (apply Z.quot_pos; lia).
  split.
  - apply Z.quot_pos; lia.
  - apply Z.quot_le_upper_bound; nia.
Qed.

Lemma MetricsHandler_average_of_total_witness :
  average_duration_ms (MetricsHandler (mkMetrics 3 1 7500000 10))
  = Z.quot (total_duration_ms (MetricsHandler (mkMetrics 3 1 7500000 10)))
           (request_count (MetricsHandler (mkMetrics 3 1 7500000 10))).
Proof.
  apply (MetricsHandler_average_of_total (mkMetrics 3 1 7500000 10)).
  - reflexivity.
  - vm_compute. split; discriminate.
Defined.

(** ** The order of the critical sections does not matter *)

Lemma run_op_comm op1 op2 m :
  run_op op1 (run_op op2 m) = run_op op2 (run_op op1 m).
Proof.
  destruct op1 as [| d1 p1], op2 as [| d2 p2]; try reflexivity.
  unfold run_op, recordRequest. cbn [RequestCount ErrorCount TotalDuration MaxPayloadSize].
  f_equal.
  - rewrite !wrap64_add_l. f_equal. lia.
  - destruct (Z.gtb_spec p2 (MaxPayloadSize m)), (Z.gtb_spec p1 (MaxPayloadSize m));
      repeat match goal with
             | |- context [?a >? ?b] => destruct (Z.gtb_spec a b)
             end; lia.
Qed.

Lemma run_ops_cons op ops m : run_ops (op :: ops) m = run_ops ops (run_op op m).
Proof. reflexivity. Qed.

Lemma run_ops_app ops1 ops2 m :
  run_ops (ops1 ++ ops2) m = run_ops ops2 (run_ops ops1 m).
Proof. unfold run_ops. apply fold_left_app. Qed.

Lemma run_ops_Permutation ops ops' :
  ops ≡ₚ ops' -> forall m, run_ops ops m = run_ops ops' m.
Proof.
  induction 1 as [| op ops ops' _ IH | op1 op2 ops | ops1 ops2 ops3 _ IH1 _ IH2];
    intros m.
  - reflexivity.
  - rewrite !run_ops_cons. apply IH.
  - rewrite !run_ops_cons. by rewrite run_op_comm.
  - by rewrite IH1.
Qed.

(** X10: the critical sections commute: executing the same operations on
    the accumulator in any order gives the same accumulator, overflow
    included. *)
Theorem run_ops_order_irrelevant
    (ops ops' : list MetricsOp) (m : FormatAPIMetrics) :
  ops ≡ₚ ops' -> run_ops ops m = run_ops ops' m.
Proof. intros Hp. by apply run_ops_Permutation. Qed.

Lemma run_ops_order_irrelevant_witness :
  run_ops [RecordError; RecordRequest 5 3; RecordRequest 7 9] formatMetrics
  = run_ops [RecordRequest 7 9; RecordError; RecordRequest 5 3] formatMetrics.
Proof.
  apply (run_ops_order_irrelevant
           [RecordError; RecordRequest 5 3; RecordRequest 7 9]
           [RecordRequest 7 9; RecordError; RecordRequest 5 3] formatMetrics).
  symmetry.
  apply (Permutation_cons_append [RecordError; RecordRequest 5 3] (RecordRequest 7 9)).
Defined.

(** ** Interleaved requests against calls one after the other *)

Section ReceivedFacts.
Context `{C : Codecs}.

Lemma call_run_ops m elapsed r :
  snd (call m elapsed r) = run_ops (ops_of (elapsed, r)) m.
Proof.
  unfold call, ops_of. cbn [fst snd].
  by destruct (serveFormat elapsed emptyResponse r).
Qed.

Lemma calls_run_ops m rs :
  calls m rs = run_ops (concat (map ops_of rs)) m.
Proof.
  revert m. induction rs as [| [elapsed r] rs IH]; intros m; [done |].
  cbn [calls map concat]. by rewrite run_ops_app, IH, call_run_ops.
Qed.

Lemma concat_insert_Permutation (ts : list (list MetricsOp)) i op rest :
  ts !! i = Some (op :: rest) ->
  concat ts ≡ₚ op :: concat (<[i := rest]> ts).
Proof.
  revert i. induction ts as [| t ts IH]; intros [| i] Hi; simpl in *; try done.
  - by injection Hi as ->.
  - rewrite (IH i Hi). by rewrite Permutation_middle.
Qed.

(** What has been executed, together with what is still to be executed,
    is what the received requests execute. *)
Lemma received_executed rs s :
  received rs s ->
  exists executed,
    metrics s = run_ops executed formatMetrics /\
    executed ++ concat (inflight s) ≡ₚ concat (map ops_of rs).
Proof.
  induction 1 as [| rs s elapsed r _ (ex & Hm & Hp)
                    | rs s i op rest _ (ex & Hm & Hp) Hi].
  - by exists [].
  - exists ex. split; [done |]. cbn [metrics inflight].
    rewrite map_app, !concat_app. cbn [map concat]. rewrite !app_nil_r.
    change (ops_of (elapsed, r)) with (snd (serveFormat elapsed emptyResponse r)).
    by rewrite app_assoc, Hp.
  - exists (ex ++ [op]). cbn [metrics inflight]. split.
    + by rewrite run_ops_app, <- Hm.
    + rewrite <- Hp, (concat_insert_Permutation _ _ _ _ Hi).
      by rewrite <- app_assoc.
Qed.

Lemma quiescent_concat s : quiescent s -> concat (inflight s) = [].
Proof.
  unfold quiescent. induction 1 as [| t ts -> _ IH]; [done |]. exact IH.
Qed.

Lemma reach_received n s :
  reach n s -> exists rs, received rs s /\ (length rs <= n)%nat.
Proof.
  induction 1 as [| n s s' _ (rs & Hrs & Hlen) Hstep].
  - exists []. split; [constructor | done].
  - destruct Hstep as [s elapsed r | s i op rest Hi].
    + exists (rs ++ [(elapsed, r)]). split; [by constructor |].
      rewrite length_app. simpl. lia.
    + exists rs. split; [by econstructor | lia].
Qed.

Lemma bodySizes_app rs rs' : bodySizes (rs ++ rs') = bodySizes rs ++ bodySizes rs'.
Proof.
  induction rs as [| [elapsed r] rs IH]; simpl; [done |].
  destruct (ReqBody r); simpl; by rewrite IH.
Qed.

Lemma count_calls_app test rs rs' :
  count_calls test (rs ++ rs') = count_calls test rs + count_calls test rs'.
Proof. induction rs as [| er rs IH]; simpl; lia. Qed.

(** The critical sections of one call, counted by kind. *)
Lemma ops_of_counts er :
  count_ops is_request (ops_of er)
  = Z.of_nat (length (bodySizes [er])) /\
  count_ops is_error (ops_of er) = count_calls repliedError [er].
Proof.
  destruct er as [elapsed r]. unfold ops_of, repliedError. cbn [fst snd].
  simpl. destruct (ReqBody r) as [data | partial err] eqn:Hb.
  - rewrite (serveFormat_readable _ _ _ _ Hb). cbn [snd].
    rewrite !count_ops_app, formatHandler_ops_by_status.
    destruct (bool_decide _); simpl; lia.
  - rewrite (serveFormat_unreadable _ _ _ _ _ Hb). simpl. lia.
Qed.

(** Every readable request received is counted once, already or later,
    and every failed reply is recorded once, already or later. *)
Lemma received_counts rs s :
  received rs s ->
  Z.of_nat (length rs) <= int64_max ->
  0 <= RequestCount (metrics s) /\
  0 <= ErrorCount (metrics s) /\
  RequestCount (metrics s) + pending is_request (inflight s)
  = Z.of_nat (length (bodySizes rs)) /\
  ErrorCount (metrics s) + pending is_error (inflight s)
  = count_calls repliedError rs.
Proof.
  induction 1 as [| rs s elapsed r _ IH | rs s i op rest Hrs IH Hi]; intros Hlen.
  - simpl. lia.
  - rewrite length_app in Hlen. simpl in Hlen.
    destruct IH as (Hr & He & Hreq & Herr); [lia |].
    cbn [metrics inflight]. rewrite !pending_app.
    rewrite bodySizes_app, length_app, count_calls_app.
    destruct (ops_of_counts (elapsed, r)) as [Hq Hx].
    unfold ops_of in Hq, Hx. cbn [fst snd] in Hq, Hx.
    rewrite Hq, Hx. lia.
  - destruct IH as (Hr & He & Hreq & Herr); [lia |].
    cbn [metrics inflight].
    pose proof (pending_insert is_error _ _ _ _ Hi) as Hpe.
    pose proof (pending_insert is_request _ _ _ _ Hi) as Hpr.
    pose proof (pending_nonneg is_error (<[i := rest]> (inflight s))).
    pose proof (pending_nonneg is_request (<[i := rest]> (inflight s))).
    assert (Hb : Z.of_nat (length (bodySizes rs)) <= Z.of_nat (length rs)).
    { clear. induction rs as [| [e r] rs IH]; simpl; [lia |].
      destruct (ReqBody r); simpl length; lia. }
    pose proof (count_calls_le_length repliedError rs).
    destruct op as [| duration payloadSize]; simpl in *.
    + rewrite wrap64_succ by lia. lia.
    + rewrite wrap64_succ by lia. lia.
Qed.

End ReceivedFacts.

(** Two requests, the second counted before the first has recorded its
    error; the update of the first is still to come. *)
Lemma received_two_interleaved :
  received (C := echo_codecs)
    [(5, post None (Readable []));
     (7, post (Some "json") (Readable [x7b; x7d]))]
    (mkServer (mkMetrics 1 1 7 2) [[RecordRequest 5 0]; []]).
Proof.
  assert (H1 : received (C := echo_codecs)
                 [(5, post None (Readable []))]
                 (mkServer formatMetrics [[RecordError; RecordRequest 5 0]])).
  { exact (received_arrive [] boot 5 (post None (Readable [])) received_boot). }
  assert (H2 : received (C := echo_codecs)
                 [(5, post None (Readable []));
                  (7, post (Some "json") (Readable [x7b; x7d]))]
                 (mkServer formatMetrics
                    [[RecordError; RecordRequest 5 0]; [RecordRequest 7 2]])).
  { exact (received_arrive _ _ 7 (post (Some "json") (Readable [x7b; x7d])) H1). }
  assert (H3 : received (C := echo_codecs)
                 [(5, post None (Readable []));
                  (7, post (Some "json") (Readable [x7b; x7d]))]
                 (mkServer (mkMetrics 1 0 7 2)
                    [[RecordError; RecordRequest 5 0]; []])).
  { exact (received_run _ _ 1%nat (RecordRequest 7 2) [] H2 eq_refl). }
  exact (received_run _ _ 0%nat RecordError [RecordRequest 5 0] H3 eq_refl).
Qed.

Lemma received_two_finished :
  received (C := echo_codecs)
    [(5, post None (Readable []));
     (7, post (Some "json") (Readable [x7b; x7d]))]
    (mkServer (mkMetrics 2 1 12 2) [[]; []]).
Proof.
  exact (received_run _ _ 0%nat (RecordRequest 5 0) []
           received_two_interleaved eq_refl).
Qed.

(** X11: whatever the interleaving of the critical sections, once no
    request in flight has one left to execute, the accumulator is the one
    that the same requests give when they are served one after the other
    in the order of their arrival; and every state reached in [n] steps
    has received at most [n] requests. *)
Theorem quiescent_as_sequential `{C : Codecs} :
  (forall rs s,
     received rs s -> quiescent s -> metrics s = calls formatMetrics rs) /\
  (forall n s,
     reach n s -> exists rs, received rs s /\ (length rs <= n)%nat).
Proof.
  split.
  - intros rs s Hrs Hq.
    destruct (received_executed rs s Hrs) as (ex & Hm & Hp).
    rewrite (quiescent_concat s Hq), app_nil_r in Hp.
    rewrite Hm, calls_run_ops. by apply run_ops_Permutation.
  - apply reach_received.
Qed.

Lemma quiescent_as_sequential_witness :
  metrics (mkServer (mkMetrics 2 1 12 2) [[]; []])
  = calls (C := echo_codecs) formatMetrics
      [(5, post None (Readable []));
       (7, post (Some "json") (Readable [x7b; x7d]))].
Proof.
  destruct (quiescent_as_sequential (C := echo_codecs)) as [Hseq _].
  apply Hseq.
  - apply received_two_finished.
  - repeat constructor.
Defined.

(** X12: in every state of the interleaved server, below 2^63 received
    requests, each received request whose body could be read is counted
    exactly once, already or by an update still to come, and each failed
    reply is recorded exactly once, already or by a critical section still
    to come. *)
Theorem received_counted_once `{C : Codecs}
    (rs : list (Z * Request)) (s : Server) :
  received rs s ->
  Z.of_nat (length rs) <= int64_max ->
  RequestCount (metrics s) + uncounted s = Z.of_nat (length (bodySizes rs)) /\
  ErrorCount (metrics s) + pending is_error (inflight s)
  = count_calls repliedError rs.
Proof.
  intros Hrs Hlen.
  destruct (received_counts rs s Hrs Hlen) as (_ & _ & Hreq & Herr).
  by split.
Qed.

Lemma received_counted_once_witness :
  RequestCount (metrics (mkServer (mkMetrics 1 1 7 2) [[RecordRequest 5 0]; []]))
  + uncounted (mkServer (mkMetrics 1 1 7 2) [[RecordRequest 5 0]; []])
  = Z.of_nat (length (bodySizes
       [(5, post None (Readable []));
        (7, post (Some "json") (Readable [x7b; x7d]))])).
Proof.
  apply (received_counted_once (C := echo_codecs)
           [(5, post None (Readable []));
            (7, post (Some "json") (Readable [x7b; x7d]))]
           (mkServer (mkMetrics 1 1 7 2) [[RecordRequest 5 0]; []])).
  - apply received_two_interleaved.
  - vm_compute. discriminate.
Defined.

(** X13: below 2^63 received requests, no step of the interleaved server
    lowers the request count, the error count or the maximum payload
    size. *)
Theorem step_counters_monotone `{C : Codecs}
    (rs : list (Z * Request)) (s s' : Server) :
  received rs s ->
  Z.of_nat (length rs) <= int64_max ->
  step s s' ->
  RequestCount (metrics s) <= RequestCount (metrics s') /\
  ErrorCount (metrics s) <= ErrorCount (metrics s') /\
  MaxPayloadSize (metrics s) <= MaxPayloadSize (metrics s').
Proof.
  intros Hrs Hlen Hstep.
  destruct (received_counts rs s Hrs Hlen) as (Hr & He & Hreq & Herr).
  destruct Hstep as [s elapsed r | s i op rest Hi]; cbn [metrics]; [lia |].
  pose proof (pending_insert is_error _ _ _ _ Hi) as Hpe.
  pose proof (pending_insert is_request _ _ _ _ Hi) as Hpr.
  pose proof (pending_nonneg is_error (<[i := rest]> (inflight s))).
  pose proof (pending_nonneg is_request (<[i := rest]> (inflight s))).
  pose proof (count_calls_le_length repliedError rs).
  assert (Hb : Z.of_nat (length (bodySizes rs)) <= Z.of_nat (length rs)).
  { clear. induction rs as [| [e r] rs IH]; simpl; [lia |].
    destruct (ReqBody r); simpl length; lia. }
  destruct op as [| duration payloadSize]; simpl in *.
  - rewrite wrap64_succ by lia. lia.
  - rewrite wrap64_succ by lia.
    destruct (Z.gtb_spec payloadSize (MaxPayloadSize (metrics s))); lia.
Qed.

Lemma step_counters_monotone_witness :
  RequestCount (mkMetrics 1 1 7 2) <= RequestCount (mkMetrics 2 1 12 2) /\
  ErrorCount (mkMetrics 1 1 7 2) <= ErrorCount (mkMetrics 2 1 12 2) /\
  MaxPayloadSize (mkMetrics 1 1 7 2) <= MaxPayloadSize (mkMetrics 2 1 12 2).
Proof.
  apply (step_counters_monotone (C := echo_codecs)
           [(5, post None (Readable []));
            (7, post (Some "json") (Readable [x7b; x7d]))]
           (mkServer (mkMetrics 1 1 7 2) [[RecordRequest 5 0]; []])
           (mkServer (mkMetrics 2 1 12 2) [[]; []])).
  - apply received_two_interleaved.
  - vm_compute. discriminate.
  - exact (step_run (mkServer (mkMetrics 1 1 7 2) [[RecordRequest 5 0]; []])
             0%nat (RecordRequest 5 0) [] eq_refl).
Defined.
